(** * Nearby Connections: Windows Bluetooth Classic socket and the WifiLan
      medium contract.

    A shallow embedding of
      - cpp/platform/impl/windows/bluetooth_classic_socket.cc
      - cpp/platform/api/wifi_lan_v2.h
    and the properties of the socket life cycle proved about it.

    The C++ code is a thin wrapper over WinRT objects.  The WinRT layer is
    not part of the sources, so it is an interface ([WinRT]) whose
    operations are parameters of every definition and theorem; [Sim] is one
    concrete instance, used to run the code on explicit inputs. *)

From Stdlib Require Import ZArith Lia List.
From Stdlib.Strings Require Import Byte.
From stdpp Require Import base option list gmap.
Import ListNotations.

Local Open Scope Z_scope.

(* ===================================================================== *)
(** * Control flow of a C++ call                                          *)
(* ===================================================================== *)

(** What a [throw] carries, as far as a handler can tell: the handlers of
    this file are all [catch (std::exception exception)], which catches
    [std::exception] and the classes derived from it and lets every other
    thrown object pass. *)
Inductive thrown : Type :=
| std_exception
| foreign_exception.

(** How a call ends: it returns a value, it leaves by an exception, or it
    has no defined behaviour (a call through a null handle or a null
    [unique_ptr]). *)
Inductive outcome (A : Type) : Type :=
| Returns (a : A)
| Throws (t : thrown)
| Undefined.
Arguments Returns {A} a.
Arguments Throws {A} t.
Arguments Undefined {A}.

(** A computation over a mutable state [S]: the state is threaded through
    and is the state reached at the point of the throw when the call
    throws. *)
Definition M (S A : Type) : Type := S -> outcome A * S.

Definition ret {S A} (a : A) : M S A := fun s => (Returns a, s).

Definition bind {S A B} (m : M S A) (k : A -> M S B) : M S B :=
  fun s =>
    match m s with
    | (Returns a, s') => k a s'
    | (Throws t, s') => (Throws t, s')
    | (Undefined, s') => (Undefined, s')
    end.

Definition undefined {S A} : M S A := fun s => (Undefined, s).

(** [try { body } catch (std::exception exception) { return handler; } rest]:
    the handler leaves the function, [rest] runs when the body completes. *)
Definition try_catch_std {S A} (body : M S unit) (handler rest : M S A) : M S A :=
  fun s =>
    match body s with
    | (Returns _, s') => rest s'
    | (Throws std_exception, s') => handler s'
    | (Throws foreign_exception, s') => (Throws foreign_exception, s')
    | (Undefined, s') => (Undefined, s')
    end.

Declare Scope cpp_scope.
Delimit Scope cpp_scope with cpp.
Notation "x <- m ;; k" := (bind m (fun x => k))
  (at level 100, m at next level, right associativity) : cpp_scope.
Notation "m ;;; k" := (bind m (fun _ => k))
  (at level 100, right associativity) : cpp_scope.

(** A method call [p.f(...)] on a handle [p] that may be null. *)
Definition invoke {S H A} (p : option H) (f : H -> M S A) : M S A :=
  match p with
  | Some h => f h
  | None => undefined
  end.

(* ===================================================================== *)
(** * Values                                                              *)
(* ===================================================================== *)

(** The values of [Exception] the sources name. *)
Inductive Exception : Type :=
| kFailed
| kSuccess
| kIo.

(** [ExceptionOr<T>]: a result or an exception value. *)
Inductive ExceptionOr (T : Type) : Type :=
| ExceptionOr_result (t : T)
| ExceptionOr_exception (e : Exception).
Arguments ExceptionOr_result {T} t.
Arguments ExceptionOr_exception {T} e.

Definition ExceptionOr_ok {T} (r : ExceptionOr T) : bool :=
  match r with
  | ExceptionOr_result _ => true
  | ExceptionOr_exception _ => false
  end.

Definition ByteArray : Type := list byte.

(** The WinRT signatures take a [UInt32] ([Buffer(UInt32 capacity)],
    [ReadAsync(IBuffer, UInt32 count, ...)]) where the source passes a
    [std::int64_t] or a [size_t]: the conversion keeps the low 32 bits. *)
Definition to_uint32 (z : Z) : Z := z mod 2 ^ 32.

(** A WinRT object is held through a reference that may be null
    ([windows_socket_ = nullptr]). *)
Definition handle : Type := positive.
Definition IStreamSocket : Type := option handle.
Definition IInputStream : Type := option handle.
Definition IOutputStream : Type := option handle.
Definition IAsyncAction : Type := option handle.
Definition HostName : Type := list byte.
Definition hstring : Type := list byte.

(** [Windows::Storage::Streams::Buffer]: [Capacity] bytes of storage of
    which the first [Length] are in use. *)
Record Buffer : Type := mkBuffer {
  Capacity : Z;
  Length : Z;
  data : list byte
}.

(** [Buffer(capacity)]: zeroed storage, nothing in use. *)
Definition Buffer_new (capacity : Z) : Buffer :=
  let c := to_uint32 capacity in
  {| Capacity := c; Length := 0; data := repeat x00 (Z.to_nat c) |}.

(** [ByteArray(const char* data, size_t size)] over a buffer's storage. *)
Definition ByteArray_of (p : list byte) (size : Z) : ByteArray :=
  take (Z.to_nat size) p.

(* ===================================================================== *)
(** * The WinRT layer                                                     *)
(* ===================================================================== *)

(** The calls the wrapper makes into WinRT, over the state [World] of the
    native layer.  [in_ReadAsync] answers with the buffer as the
    statements after the call find it: the source does not wait for the
    asynchronous read.  [out_FlushAsync_get] is [FlushAsync().get()]. *)
Class WinRT (World : Type) : Type := {
  new_IStreamSocket : M World IStreamSocket;
  socket_InputStream : handle -> M World IInputStream;
  socket_OutputStream : handle -> M World IOutputStream;
  socket_Close : handle -> M World unit;
  socket_ConnectAsync : handle -> HostName -> hstring -> M World IAsyncAction;
  socket_CancelIOAsync : handle -> M World IAsyncAction;
  in_ReadAsync : handle -> Buffer -> Z -> M World Buffer;
  in_Close : handle -> M World unit;
  DataReader_FromBuffer : Buffer -> M World unit;
  out_WriteAsync : handle -> Buffer -> M World unit;
  out_FlushAsync_get : handle -> M World unit;
  out_Close : handle -> M World unit
}.

(* ===================================================================== *)
(** * bluetooth_classic_socket.cc                                         *)
(* ===================================================================== *)

Record BluetoothInputStream : Type := mkInput { in_winrt_stream_ : IInputStream }.
Record BluetoothOutputStream : Type := mkOutput { out_winrt_stream_ : IOutputStream }.

(** The three members of [BluetoothSocket]; [None] is [nullptr]. *)
Record BluetoothSocket : Type := mkSocket {
  windows_socket_ : IStreamSocket;
  input_stream_ : option BluetoothInputStream;
  output_stream_ : option BluetoothOutputStream
}.

(** The members after a [Close()] that returned. *)
Definition closed_socket : BluetoothSocket :=
  {| windows_socket_ := None; input_stream_ := None; output_stream_ := None |}.

(** [api::BluetoothDevice*] *)
Definition BluetoothDevice : Type := list byte.

Module InputStream.
Section Methods.
Context {World : Type} {N : WinRT World}.
Local Open Scope cpp_scope.

(** [BluetoothInputStream::BluetoothInputStream(IInputStream stream)] *)
Definition make (stream : IInputStream) : BluetoothInputStream :=
  {| in_winrt_stream_ := stream |}.

(** [BluetoothInputStream::Read(std::int64_t size)] *)
Definition Read (self : BluetoothInputStream) (size : Z)
  : M World (ExceptionOr ByteArray) :=
  let buffer := Buffer_new size in
  buffer <- invoke (in_winrt_stream_ self)
              (fun h => in_ReadAsync h buffer (to_uint32 size)) ;;
  DataReader_FromBuffer buffer ;;;
  let data := ByteArray_of (data buffer) (Length buffer) in
  ret (ExceptionOr_result data).

(** [BluetoothInputStream::Close()] *)
Definition Close (self : BluetoothInputStream) : M World Exception :=
  try_catch_std
    (invoke (in_winrt_stream_ self) in_Close)
    (ret kFailed)
    (ret kSuccess).
End Methods.
End InputStream.

Module OutputStream.
Section Methods.
Context {World : Type} {N : WinRT World}.
Local Open Scope cpp_scope.

(** [BluetoothOutputStream::BluetoothOutputStream(IOutputStream stream)] *)
Definition make (stream : IOutputStream) : BluetoothOutputStream :=
  {| out_winrt_stream_ := stream |}.

(** [std::memcpy(buffer.data(), data.data(), data.size())]: the bytes
    land in the storage and [Length] is left as it was; copying more
    than the storage holds is undefined. *)
Definition memcpy_into (buffer : Buffer) (src : ByteArray) : M World Buffer :=
  if Z.of_nat (length src) <=? Capacity buffer
  then ret {| Capacity := Capacity buffer;
              Length := Length buffer;
              data := src ++ drop (length src) (data buffer) |}
  else undefined.

(** [BluetoothOutputStream::Write(const ByteArray& data)] *)
Definition Write (self : BluetoothOutputStream) (bytes : ByteArray)
  : M World Exception :=
  let buffer := Buffer_new (Z.of_nat (length bytes)) in
  buffer <- memcpy_into buffer bytes ;;
  try_catch_std
    (invoke (out_winrt_stream_ self) (fun h => out_WriteAsync h buffer))
    (ret kFailed)
    (ret kSuccess).

(** The buffer [Write] hands to [WriteAsync] when the bytes fit: they are
    in the storage, and [Length] is the zero [Buffer(capacity)] set. *)
Definition Write_buffer (bytes : ByteArray) : Buffer :=
  let b := Buffer_new (Z.of_nat (length bytes)) in
  {| Capacity := Capacity b;
     Length := 0;
     data := bytes ++ drop (length bytes) (data b) |}.

(** [BluetoothOutputStream::Flush()] *)
Definition Flush (self : BluetoothOutputStream) : M World Exception :=
  try_catch_std
    (invoke (out_winrt_stream_ self) out_FlushAsync_get)
    (ret kFailed)
    (ret kSuccess).

(** [BluetoothOutputStream::Close()] *)
Definition Close (self : BluetoothOutputStream) : M World Exception :=
  try_catch_std
    (invoke (out_winrt_stream_ self) out_Close)
    (ret kFailed)
    (ret kSuccess).
End Methods.
End OutputStream.

Module Socket.
Section Methods.
Context {World : Type} {N : WinRT World}.
Local Open Scope cpp_scope.

(** The members of the object and the native layer, as one state. *)
Definition state : Type := (BluetoothSocket * World)%type.

(** A native call made from a method of the socket. *)
Definition native {A} (m : M World A) : M state A :=
  fun '(this, w) => let '(r, w') := m w in (r, (this, w')).

Definition this {A} (f : BluetoothSocket -> M state A) : M state A :=
  fun '(this, w) => f this (this, w).

Definition assign (f : BluetoothSocket -> BluetoothSocket) : M state unit :=
  fun '(this, w) => (Returns tt, (f this, w)).

(** [BluetoothSocket::BluetoothSocket()] *)
Definition make : M World BluetoothSocket :=
  sock <- new_IStreamSocket ;;
  i <- invoke sock socket_InputStream ;;
  let input := InputStream.make i in
  o <- invoke sock socket_OutputStream ;;
  let output := OutputStream.make o in
  ret {| windows_socket_ := sock;
         input_stream_ := Some input;
         output_stream_ := Some output |}.

(** [BluetoothSocket::GetInputStream()]: [*input_stream_.get()] *)
Definition GetInputStream : M state BluetoothInputStream :=
  this (fun s => invoke (input_stream_ s) ret).

(** [BluetoothSocket::GetOutputStream()]: [*output_stream_.get()] *)
Definition GetOutputStream : M state BluetoothOutputStream :=
  this (fun s => invoke (output_stream_ s) ret).

(** [BluetoothSocket::Close()] *)
Definition Close : M state Exception :=
  this (fun s => native (invoke (windows_socket_ s) socket_Close)) ;;;
  assign (fun s => {| windows_socket_ := None;
                      input_stream_ := input_stream_ s;
                      output_stream_ := output_stream_ s |}) ;;;
  assign (fun s => {| windows_socket_ := windows_socket_ s;
                      input_stream_ := None;
                      output_stream_ := output_stream_ s |}) ;;;
  assign (fun s => {| windows_socket_ := windows_socket_ s;
                      input_stream_ := input_stream_ s;
                      output_stream_ := None |}) ;;;
  ret kSuccess.

(** [BluetoothSocket::GetRemoteDevice()]: [return nullptr;] *)
Definition GetRemoteDevice : M state (option BluetoothDevice) :=
  ret None.

(** [BluetoothSocket::ConnectAsync(connectionHostName, connectionServiceName)] *)
Definition ConnectAsync (connectionHostName : HostName)
    (connectionServiceName : hstring) : M state IAsyncAction :=
  this (fun s => native (invoke (windows_socket_ s)
    (fun h => socket_ConnectAsync h connectionHostName connectionServiceName))).

(** [BluetoothSocket::CancelIOAsync()] *)
Definition CancelIOAsync : M state IAsyncAction :=
  this (fun s => native (invoke (windows_socket_ s) socket_CancelIOAsync)).

(** ** Use of a socket by its owner

    What a caller can do with a [BluetoothSocket]: the methods of the
    socket and, through [GetInputStream()] and [GetOutputStream()], the
    methods of its two streams. *)
Inductive call : Type :=
| call_GetInputStream
| call_GetOutputStream
| call_GetRemoteDevice
| call_ConnectAsync (host : HostName) (service : hstring)
| call_CancelIOAsync
| call_Read (size : Z)
| call_InputClose
| call_Write (bytes : ByteArray)
| call_Flush
| call_OutputClose
| call_Close.

Definition is_Close (c : call) : bool :=
  match c with call_Close => true | _ => false end.

Definition discard {A} (m : M state A) : M state unit := m ;;; ret tt.

(** One call, its result dropped. *)
Definition perform (c : call) : M state unit :=
  match c with
  | call_GetInputStream => discard GetInputStream
  | call_GetOutputStream => discard GetOutputStream
  | call_GetRemoteDevice => discard GetRemoteDevice
  | call_ConnectAsync host service => discard (ConnectAsync host service)
  | call_CancelIOAsync => discard CancelIOAsync
  | call_Read size =>
      discard (i <- GetInputStream ;; native (InputStream.Read i size))
  | call_InputClose =>
      discard (i <- GetInputStream ;; native (InputStream.Close i))
  | call_Write bytes =>
      discard (o <- GetOutputStream ;; native (OutputStream.Write o bytes))
  | call_Flush =>
      discard (o <- GetOutputStream ;; native (OutputStream.Flush o))
  | call_OutputClose =>
      discard (o <- GetOutputStream ;; native (OutputStream.Close o))
  | call_Close => discard Close
  end.

(** [m] leaves the three members of the socket as they are, however it
    ends. *)
Definition keeps_members {A} (m : M state A) : Prop :=
  forall s w, (m (s, w)).2.1 = s.

(** A sequence of calls by a caller that handles every exception and goes
    on; the program has no state to speak of once a call was undefined. *)
Fixpoint perform_all (cs : list call) (st : state) : option state :=
  match cs with
  | [] => Some st
  | c :: cs' =>
      match perform c st with
      | (Undefined, _) => None
      | (_, st') => perform_all cs' st'
      end
  end.
End Methods.
End Socket.


(* ===================================================================== *)
(** * A concrete WinRT layer                                              *)
(* ===================================================================== *)

(** One connection and its socket.  [sim_teardown] is what a native
    [Close] raises, if anything; [sim_link] is what a call on a stream
    raises when the connection is broken; [sim_after_close] is what a call
    on a closed stream raises ([None]: the call returns and does nothing);
    [sim_peer] is the remote device the link layer knows of. *)
Record Sim : Type := mkSim {
  sim_teardown : option thrown;
  sim_link : option thrown;
  sim_after_close : option thrown;
  sim_peer : option BluetoothDevice;
  sim_input_closed : bool;
  sim_output_closed : bool;
  sim_inbox : list byte;
  sim_outbox : list byte
}.

Definition sim_raise {A} (fault : option thrown) (m : M Sim A) : M Sim A :=
  match fault with
  | Some t => fun w => (Throws t, w)
  | None => m
  end.

Definition sim_close (input output : bool) : M Sim unit :=
  fun w =>
    sim_raise (sim_teardown w)
      (fun w => (Returns tt,
                 {| sim_teardown := sim_teardown w;
                    sim_link := sim_link w;
                    sim_after_close := sim_after_close w;
                    sim_peer := sim_peer w;
                    sim_input_closed := input || sim_input_closed w;
                    sim_output_closed := output || sim_output_closed w;
                    sim_inbox := sim_inbox w;
                    sim_outbox := sim_outbox w |})) w.

(** A call on a stream: the fault of a closed stream, else the fault of a
    broken connection, else [m]; [quiet] is what a closed stream answers
    when it raises nothing. *)
Definition sim_stream_call {A} (closed : bool) (quiet : A) (m : M Sim A) : M Sim A :=
  fun w =>
    if closed then sim_raise (sim_after_close w) (ret quiet) w
    else sim_raise (sim_link w) m w.

(** A read takes what has arrived, as much as fits. *)
Definition sim_read (b : Buffer) (count : Z) : M Sim Buffer :=
  fun w =>
    let n := Z.to_nat (Z.min count (Capacity b)) in
    let got := take n (sim_inbox w) in
    (Returns {| Capacity := Capacity b;
                Length := Z.of_nat (length got);
                data := got ++ drop (length got) (data b) |},
     {| sim_teardown := sim_teardown w;
        sim_link := sim_link w;
        sim_after_close := sim_after_close w;
        sim_peer := sim_peer w;
        sim_input_closed := sim_input_closed w;
        sim_output_closed := sim_output_closed w;
        sim_inbox := drop n (sim_inbox w);
        sim_outbox := sim_outbox w |}).

(** A write sends the bytes of the buffer that are in use. *)
Definition sim_write (b : Buffer) : M Sim unit :=
  fun w =>
    (Returns tt,
     {| sim_teardown := sim_teardown w;
        sim_link := sim_link w;
        sim_after_close := sim_after_close w;
        sim_peer := sim_peer w;
        sim_input_closed := sim_input_closed w;
        sim_output_closed := sim_output_closed w;
        sim_inbox := sim_inbox w;
        sim_outbox := sim_outbox w ++ take (Z.to_nat (Length b)) (data b) |}).

#[export] Instance Sim_WinRT : WinRT Sim := {|
  new_IStreamSocket := ret (Some 1%positive);
  socket_InputStream := fun _ => ret (Some 2%positive);
  socket_OutputStream := fun _ => ret (Some 3%positive);
  socket_Close := fun _ => sim_close true true;
  socket_ConnectAsync := fun _ _ _ => ret (Some 4%positive);
  socket_CancelIOAsync := fun _ => ret (Some 5%positive);
  in_ReadAsync := fun _ b count w =>
    sim_stream_call (sim_input_closed w) b (sim_read b count) w;
  in_Close := fun _ => sim_close true false;
  DataReader_FromBuffer := fun _ => ret tt;
  out_WriteAsync := fun _ b w =>
    sim_stream_call (sim_output_closed w) tt (sim_write b) w;
  out_FlushAsync_get := fun _ w =>
    sim_stream_call (sim_output_closed w) tt (ret tt) w;
  out_Close := fun _ => sim_close false true
|}.

Definition peer_address : BluetoothDevice := [x00; x1a; x7d; xda; x71; x13].

(** A connection in the making: [teardown], [link] and [after_close] are
    the faults of the native layer, [inbox] the bytes that have arrived. *)
Definition sim_world (teardown link after_close : option thrown)
    (inbox : list byte) : Sim :=
  {| sim_teardown := teardown;
     sim_link := link;
     sim_after_close := after_close;
     sim_peer := Some peer_address;
     sim_input_closed := false;
     sim_output_closed := false;
     sim_inbox := inbox;
     sim_outbox := [] |}.

(** A healthy connection with five bytes waiting. *)
Definition sim_connected : Sim :=
  sim_world None None None [x68; x65; x6c; x6c; x6f].

(** A connection that broke: calls on the streams raise [t]. *)
Definition sim_broken (t : thrown) : Sim :=
  sim_world None (Some t) None [].

(** A connection whose native [Close] raises [t]. *)
Definition sim_stuck (t : thrown) : Sim :=
  sim_world (Some t) None None [].

(** A healthy connection whose closed streams raise [t] when used. *)
Definition sim_strict (t : thrown) : Sim :=
  sim_world None None (Some t) [].

(** The socket [BluetoothSocket()] builds over [Sim], and its streams. *)
Definition sim_input : BluetoothInputStream := InputStream.make (Some 2%positive).
Definition sim_output : BluetoothOutputStream := OutputStream.make (Some 3%positive).
Definition sim_socket : BluetoothSocket :=
  {| windows_socket_ := Some 1%positive;
     input_stream_ := Some sim_input;
     output_stream_ := Some sim_output |}.

(* ===================================================================== *)
(** * wifi_lan_v2.h                                                       *)
(* ===================================================================== *)

Module WifiLan.

(** [WifiLanService]: the service a socket is connected to, by address. *)
Record WifiLanService : Type := mkService {
  service_address : list byte;
  service_port : Z
}.

(** A [WifiLanSocket] as its accessors show it: the two streams, the
    remote service ([nullptr] when there is no connection) and whether
    [Close()] has been called. *)
Record WifiLanSocket : Type := mkWifiLanSocket {
  socket_input : option handle;
  socket_output : option handle;
  socket_remote : option WifiLanService;
  socket_closed : bool
}.

(** A socket ready to exchange data. *)
Definition connected (s : WifiLanSocket) : bool :=
  bool_decide (is_Some (socket_input s)) &&
  bool_decide (is_Some (socket_output s)) &&
  bool_decide (is_Some (socket_remote s)) &&
  negb (socket_closed s).

(** What the native connection attempt has come to when it is looked at. *)
Inductive progress : Type :=
| Pending
| Established (input output : handle)
| Refused.

(** Modelled from the spec: [WifiLanMediumV2::ConnectToService] is declared
    pure virtual in wifi_lan_v2.h and no implementation of it is among the
    sources.  The spec has it block while it polls the cancellation flag:
    a set flag ends the call with no socket, a completed connection ends
    it with a connected socket, a failed one with no socket.
    [cancellation_flag n] is what the [n]-th look at the shared flag
    reads, [attempt n] what the native connection has come to by then;
    the result is [None] while the call has not returned within [fuel]
    polls, [Some nullptr] or [Some socket] once it has. *)
Fixpoint ConnectToService_from (fuel : nat) (remote_service : WifiLanService)
    (cancellation_flag : nat -> bool) (attempt : nat -> progress) (n : nat)
    : option (option WifiLanSocket) :=
  match fuel with
  | O => None
  | S fuel' =>
      if cancellation_flag n then Some None
      else
        match attempt n with
        | Established input output =>
            Some (Some {| socket_input := Some input;
                          socket_output := Some output;
                          socket_remote := Some remote_service;
                          socket_closed := false |})
        | Refused => Some None
        | Pending =>
            ConnectToService_from fuel' remote_service cancellation_flag
              attempt (S n)
        end
  end.

Definition ConnectToService (fuel : nat) (remote_service : WifiLanService)
    (cancellation_flag : nat -> bool) (attempt : nat -> progress)
    : option (option WifiLanSocket) :=
  ConnectToService_from fuel remote_service cancellation_flag attempt O.

Section Discovery.
(** What a [std::function<void(WifiLanService&)>] holds. *)
Variable Handler : Type.

(** [DiscoveredServiceCallback]: the two functions, and which instance it
    is.  Two instances can hold the same functions. *)
Record DiscoveredServiceCallback : Type := mkCallback {
  instance : positive;
  service_discovered_cb : Handler;
  service_lost_cb : Handler
}.

(** The discovery side of a [WifiLanMediumV2]: the live registrations, at
    most one per callback instance. *)
Record Medium : Type := mkMedium {
  registrations : gmap positive DiscoveredServiceCallback
}.

Definition Idle : Medium := {| registrations := ∅ |}.

(** Discovery is active for [callback]. *)
Definition Discovering (callback : DiscoveredServiceCallback) (m : Medium) : Prop :=
  registrations m !! instance callback = Some callback.

(** Modelled from the spec: [WifiLanMediumV2::StartDiscovery] is declared
    pure virtual in wifi_lan_v2.h and no implementation of it is among the
    sources.  The spec has it register the callback, keyed by its
    identity, and answer [true] once discovery has been initiated;
    [initiated] is whether the native layer agreed to start. *)
Definition StartDiscovery (initiated : bool)
    (callback : DiscoveredServiceCallback) (m : Medium) : bool * Medium :=
  if initiated
  then (true, {| registrations := <[instance callback := callback]> (registrations m) |})
  else (false, m).

(** Modelled from the spec: [WifiLanMediumV2::StopDiscovery] is declared
    pure virtual in wifi_lan_v2.h and no implementation of it is among the
    sources.  The spec has it end the registration of the callback instance
    it is given and do nothing when that instance has no live
    registration.  The boolean the call answers with is left out: the spec
    does not say what a call that matches nothing returns. *)
Definition StopDiscovery (callback : DiscoveredServiceCallback) (m : Medium)
    : Medium :=
  match registrations m !! instance callback with
  | Some _ => {| registrations := delete (instance callback) (registrations m) |}
  | None => m
  end.
End Discovery.

Arguments instance {Handler} _.
Arguments registrations {Handler} _.
Arguments Idle {Handler}.
Arguments Discovering {Handler} _ _.
Arguments StartDiscovery {Handler} _ _ _.
Arguments StopDiscovery {Handler} _ _.

End WifiLan.

(* ===================================================================== *)
(** * A scripted WinRT layer                                              *)
(* ===================================================================== *)

(** The bytes of a buffer that are in use: the first [Length] bytes of its
    storage, which is all a reader of an [IBuffer] is told to look at. *)
Definition Buffer_in_use (b : Buffer) : list byte :=
  ByteArray_of (data b) (Length b).

(** ** What the wrapper relies on in [IBuffer] *)
Section Contracts.
Context {World : Type} {N : WinRT World}.

(** The native read keeps [Length] within the capacity of a well-formed
    buffer. *)
Definition ReadAsync_fits : Prop :=
  forall h b n (w0 w1 : World) b',
    0 <= Length b <= Capacity b ->
    in_ReadAsync h b n w0 = (Returns b', w1) ->
    Length b' <= Capacity b.

(** The native write looks at the capacity, the length and the bytes in
    use of the buffer, and at nothing else of it. *)
Definition WriteAsync_reads_in_use : Prop :=
  forall h b b' (w0 : World),
    Capacity b = Capacity b' ->
    Length b = Length b' ->
    Buffer_in_use b = Buffer_in_use b' ->
    out_WriteAsync h b w0 = out_WriteAsync h b' w0.

End Contracts.

(** A native layer that follows a script: each native call takes the next
    entry, raises it when it is a fault and returns otherwise; past the end
    of the script every call returns.  A read leaves the buffer as it
    is. *)
Definition Script : Type := list (option thrown).

Definition scripted {A} (a : A) : M Script A :=
  fun w =>
    match w with
    | [] => (Returns a, [])
    | None :: w' => (Returns a, w')
    | Some t :: w' => (Throws t, w')
    end.

#[export] Instance Script_WinRT : WinRT Script := {|
  new_IStreamSocket := scripted (Some 1%positive);
  socket_InputStream := fun _ => scripted (Some 2%positive);
  socket_OutputStream := fun _ => scripted (Some 3%positive);
  socket_Close := fun _ => scripted tt;
  socket_ConnectAsync := fun _ _ _ => scripted (Some 4%positive);
  socket_CancelIOAsync := fun _ => scripted (Some 5%positive);
  in_ReadAsync := fun _ b _ => scripted b;
  in_Close := fun _ => scripted tt;
  DataReader_FromBuffer := fun _ => scripted tt;
  out_WriteAsync := fun _ _ => scripted tt;
  out_FlushAsync_get := fun _ => scripted tt;
  out_Close := fun _ => scripted tt
|}.

(* ===================================================================== *)
(** * The streams                                                         *)
(* ===================================================================== *)

(** Unfolds the control-flow combinators in the goal and in [H]. *)
Ltac unfold_cpp :=
  unfold try_catch_std, bind, ret, invoke, undefined in *.

(** Case analysis on the native call the goal is stuck on. *)
Ltac native_cases :=
  repeat match goal with
  | |- context [match ?m ?w with (_, _) => _ end] =>
      let r := fresh "r" in let w' := fresh "w'" in let E := fresh "E" in
      destruct (m w) as [r w'] eqn:E; try destruct r as [? | [ | ] | ]
  | H : context [match ?m ?w with (_, _) => _ end] |- _ =>
      let r := fresh "r" in let w' := fresh "w'" in let E := fresh "E" in
      destruct (m w) as [r w'] eqn:E; try destruct r as [? | [ | ] | ]
  end.

Section Streams.
Context {World : Type} {N : WinRT World}.

(** [Read] in one piece: a null stream is undefined; otherwise the result
    follows the two native calls, and an exception of either leaves
    [Read] as it is. *)
Lemma Read_unfold (self : BluetoothInputStream) (size : Z) (w : World) :
  InputStream.Read self size w =
  match in_winrt_stream_ self with
  | None => (Undefined, w)
  | Some h =>
      match in_ReadAsync h (Buffer_new size) (to_uint32 size) w with
      | (Returns b, w1) =>
          match DataReader_FromBuffer b w1 with
          | (Returns _, w2) =>
              (Returns (ExceptionOr_result (ByteArray_of (data b) (Length b))), w2)
          | (Throws t, w2) => (Throws t, w2)
          | (Undefined, w2) => (Undefined, w2)
          end
      | (Throws t, w1) => (Throws t, w1)
      | (Undefined, w1) => (Undefined, w1)
      end
  end.
Proof.
  unfold InputStream.Read. unfold_cpp.
  destruct (in_winrt_stream_ self) as [h | ]; [ | reflexivity].
  native_cases; reflexivity.
Qed.

(** Whatever [Read] returns is a byte array: no path returns an exception
    value. *)
Lemma Read_returns_result (self : BluetoothInputStream) (size : Z) (w w' : World)
    (r : ExceptionOr ByteArray) :
  InputStream.Read self size w = (Returns r, w') ->
  exists bytes, r = ExceptionOr_result bytes.
Proof.
  rewrite Read_unfold.
  destruct (in_winrt_stream_ self) as [h | ]; [ | discriminate].
  intros H. native_cases; inversion H; eauto.
Qed.

(** An exception of the native read leaves [Read], whatever it is. *)
Lemma Read_propagates (self : BluetoothInputStream) (h : handle) (size : Z)
    (w w' : World) (t : thrown) :
  in_winrt_stream_ self = Some h ->
  in_ReadAsync h (Buffer_new size) (to_uint32 size) w = (Throws t, w') ->
  InputStream.Read self size w = (Throws t, w').
Proof.
  intros Hs Hr. rewrite Read_unfold, Hs, Hr. reflexivity.
Qed.

(** The generic shape of the four guarded operations. *)
Lemma guarded_call_cases (p : option handle) (f : handle -> M World unit)
    (w : World) :
  try_catch_std (invoke p f) (ret kFailed) (ret kSuccess) w =
  match p with
  | None => (Undefined, w)
  | Some h =>
      match f h w with
      | (Returns _, w') => (Returns kSuccess, w')
      | (Throws std_exception, w') => (Returns kFailed, w')
      | (Throws foreign_exception, w') => (Throws foreign_exception, w')
      | (Undefined, w') => (Undefined, w')
      end
  end.
Proof.
  unfold_cpp. destruct p as [h | ]; [ | reflexivity].
  native_cases; reflexivity.
Qed.

Lemma Write_unfold (self : BluetoothOutputStream) (bytes : ByteArray) (w : World) :
  Z.of_nat (length bytes) < 2 ^ 32 ->
  OutputStream.Write self bytes w =
  match out_winrt_stream_ self with
  | None => (Undefined, w)
  | Some h =>
      match out_WriteAsync h (OutputStream.Write_buffer bytes) w with
      | (Returns _, w') => (Returns kSuccess, w')
      | (Throws std_exception, w') => (Returns kFailed, w')
      | (Throws foreign_exception, w') => (Throws foreign_exception, w')
      | (Undefined, w') => (Undefined, w')
      end
  end.
Proof.
  intros Hlen. unfold OutputStream.Write, OutputStream.memcpy_into.
  assert (Hcap : Capacity (Buffer_new (Z.of_nat (length bytes))) =
                 Z.of_nat (length bytes)).
  { unfold Buffer_new, to_uint32. simpl. apply Z.mod_small. lia. }
  rewrite Hcap, Z.leb_refl.
  unfold bind at 1. unfold ret at 1.
  change ({| Capacity := Z.of_nat (length bytes);
             Length := Length (Buffer_new (Z.of_nat (length bytes)));
             data := bytes ++ drop (length bytes)
                       (data (Buffer_new (Z.of_nat (length bytes)))) |})
    with ({| Capacity := Z.of_nat (length bytes); Length := 0;
             data := bytes ++ drop (length bytes)
                       (data (Buffer_new (Z.of_nat (length bytes)))) |}).
  rewrite guarded_call_cases.
  unfold OutputStream.Write_buffer. rewrite Hcap. reflexivity.
Qed.
End Streams.

Section StreamClaims.
Context {World : Type} {N : WinRT World}.

(** C10. For every size argument [BluetoothInputStream::Read] has no
    error-return branch: whenever it returns, the result is a success
    carrying a byte array.  Its siblings [Write], [Flush] and the two
    stream [Close] functions each have a failure branch: they return
    [kFailed] when the underlying WinRT call throws an exception their
    handler catches, a [std::exception]. *)
Theorem Read_has_no_failure_branch_siblings_do :
  (forall self size w w' r,
      InputStream.Read self size w = (Returns r, w') ->
      ExceptionOr_ok r = true /\ forall e, r <> ExceptionOr_exception e)
  /\ (forall self h bytes w w',
      out_winrt_stream_ self = Some h ->
      Z.of_nat (length bytes) < 2 ^ 32 ->
      out_WriteAsync h (OutputStream.Write_buffer bytes) w = (Throws std_exception, w') ->
      OutputStream.Write self bytes w = (Returns kFailed, w'))
  /\ (forall self h w w',
      out_winrt_stream_ self = Some h ->
      out_FlushAsync_get h w = (Throws std_exception, w') ->
      OutputStream.Flush self w = (Returns kFailed, w'))
  /\ (forall self h w w',
      in_winrt_stream_ self = Some h ->
      in_Close h w = (Throws std_exception, w') ->
      InputStream.Close self w = (Returns kFailed, w'))
  /\ (forall self h w w',
      out_winrt_stream_ self = Some h ->
      out_Close h w = (Throws std_exception, w') ->
      OutputStream.Close self w = (Returns kFailed, w')).
Proof.
  repeat split.
  - apply Read_returns_result in H as [bytes ->]. reflexivity.
  - apply Read_returns_result in H as [bytes ->]. discriminate.
  - intros self h bytes w w' Hs Hlen Hw.
    rewrite Write_unfold, Hs, Hw by exact Hlen. reflexivity.
  - intros self h w w' Hs Hf. unfold OutputStream.Flush.
    rewrite guarded_call_cases, Hs, Hf. reflexivity.
  - intros self h w w' Hs Hc. unfold InputStream.Close.
    rewrite guarded_call_cases, Hs, Hc. reflexivity.
  - intros self h w w' Hs Hc. unfold OutputStream.Close.
    rewrite guarded_call_cases, Hs, Hc. reflexivity.
Qed.
End StreamClaims.

(* ===================================================================== *)
(** * The socket                                                          *)
(* ===================================================================== *)

Section SocketLemmas.
Context {World : Type} {N : WinRT World}.

(** [Close] in one piece: the native [Close] comes first, and the three
    members are reset only when it returns. *)
Lemma Close_unfold (s : BluetoothSocket) (w : World) :
  Socket.Close (s, w) =
  match windows_socket_ s with
  | None => (Undefined, (s, w))
  | Some h =>
      match socket_Close h w with
      | (Returns _, w') => (Returns kSuccess, (closed_socket, w'))
      | (Throws t, w') => (Throws t, (s, w'))
      | (Undefined, w') => (Undefined, (s, w'))
      end
  end.
Proof.
  unfold Socket.Close, Socket.this, Socket.native, Socket.assign.
  unfold_cpp. destruct (windows_socket_ s) as [h | ]; [ | reflexivity].
  destruct (socket_Close h w) as [[[] | t | ] w']; reflexivity.
Qed.

(** A [Close] that returns answers [kSuccess] and leaves the three members
    null. *)
Lemma Close_returns (st st' : Socket.state) (e : Exception) :
  Socket.Close st = (Returns e, st') ->
  e = kSuccess /\ st'.1 = closed_socket.
Proof.
  destruct st as [s w]. rewrite Close_unfold.
  destruct (windows_socket_ s) as [h | ]; [ | discriminate].
  destruct (socket_Close h w) as [[[] | t | ] w']; try discriminate.
  intros H. inversion H. auto.
Qed.

(** No path of [Close] returns a failure value. *)
Lemma Close_never_returns_failure (st st' : Socket.state) (e : Exception) :
  Socket.Close st = (Returns e, st') -> e <> kIo /\ e <> kFailed.
Proof.
  intros H. apply Close_returns in H as [-> _]. split; discriminate.
Qed.

(** An exception of the native [Close] leaves [Close] and the members stay
    as they were. *)
Lemma Close_throws (s : BluetoothSocket) (h : handle) (w w' : World) (t : thrown) :
  windows_socket_ s = Some h ->
  socket_Close h w = (Throws t, w') ->
  Socket.Close (s, w) = (Throws t, (s, w')).
Proof.
  intros Hs Hc. rewrite Close_unfold, Hs, Hc. reflexivity.
Qed.

(** A second [Close] calls through the null [windows_socket_]. *)
Lemma Close_again_undefined (st st' : Socket.state) (e : Exception) :
  Socket.Close st = (Returns e, st') ->
  Socket.Close st' = (Undefined, st').
Proof.
  intros H. destruct (Close_returns _ _ _ H) as [_ Hs].
  destruct st' as [s' w']. simpl in Hs. subst s'.
  rewrite Close_unfold. reflexivity.
Qed.

Lemma GetInputStream_unfold (s : BluetoothSocket) (w : World) :
  Socket.GetInputStream (s, w) =
  match input_stream_ s with
  | Some i => (Returns i, (s, w))
  | None => (Undefined, (s, w))
  end.
Proof.
  unfold Socket.GetInputStream, Socket.this. unfold_cpp.
  destruct (input_stream_ s); reflexivity.
Qed.

Lemma GetOutputStream_unfold (s : BluetoothSocket) (w : World) :
  Socket.GetOutputStream (s, w) =
  match output_stream_ s with
  | Some o => (Returns o, (s, w))
  | None => (Undefined, (s, w))
  end.
Proof.
  unfold Socket.GetOutputStream, Socket.this. unfold_cpp.
  destruct (output_stream_ s); reflexivity.
Qed.

(** [GetRemoteDevice] answers [nullptr] for every socket. *)
Lemma GetRemoteDevice_null (st : @Socket.state World) :
  Socket.GetRemoteDevice st = (Returns None, st).
Proof. reflexivity. Qed.

(** A constructor that returns has made both streams. *)
Lemma make_returns (w0 w : World) (s : BluetoothSocket) :
  Socket.make w0 = (Returns s, w) ->
  is_Some (input_stream_ s) /\ is_Some (output_stream_ s).
Proof.
  unfold Socket.make. unfold_cpp.
  destruct (new_IStreamSocket w0) as [[[h | ] | t | ] w1]; try discriminate.
  destruct (socket_InputStream h w1) as [[i | t | ] w2]; try discriminate.
  destruct (socket_OutputStream h w2) as [[o | t | ] w3]; try discriminate.
  intros H. inversion H; subst. simpl. split; eexists; reflexivity.
Qed.

(** A constructor that returns has a native socket that is not null. *)
Lemma make_handle (w0 w : World) (s : BluetoothSocket) :
  Socket.make w0 = (Returns s, w) -> is_Some (windows_socket_ s).
Proof.
  unfold Socket.make. unfold_cpp.
  destruct (new_IStreamSocket w0) as [[[h | ] | t | ] w1]; try discriminate.
  destruct (socket_InputStream h w1) as [[i | t | ] w2]; try discriminate.
  destruct (socket_OutputStream h w2) as [[o | t | ] w3]; try discriminate.
  intros H. inversion H; subst. simpl. eexists; reflexivity.
Qed.

(** What leaves the members alone: a native call, a read of the members,
    and any sequence of such steps. *)
Lemma keeps_ret {A} (a : A) : Socket.keeps_members (World := World) (ret a).
Proof. intros s w. reflexivity. Qed.

Lemma keeps_undefined {A} : Socket.keeps_members (World := World) (A := A) undefined.
Proof. intros s w. reflexivity. Qed.

Lemma keeps_native {A} (m : M World A) : Socket.keeps_members (Socket.native m).
Proof.
  intros s w. unfold Socket.native. destruct (m w) as [r w']. reflexivity.
Qed.

Lemma keeps_this {A} (f : BluetoothSocket -> M (@Socket.state World) A) :
  (forall s, Socket.keeps_members (f s)) -> Socket.keeps_members (Socket.this f).
Proof. intros Hf s w. unfold Socket.this. apply Hf. Qed.

Lemma keeps_bind {A B} (m : M (@Socket.state World) A) (k : A -> M (@Socket.state World) B) :
  Socket.keeps_members m -> (forall a, Socket.keeps_members (k a)) ->
  Socket.keeps_members (bind m k).
Proof.
  intros Hm Hk s w. unfold bind. specialize (Hm s w).
  destruct (m (s, w)) as [[a | t | ] [s' w']]; simpl in Hm; subst s'.
  - apply Hk.
  - reflexivity.
  - reflexivity.
Qed.

Lemma keeps_invoke {H A} (p : option H) (f : H -> M (@Socket.state World) A) :
  (forall h, Socket.keeps_members (f h)) -> Socket.keeps_members (invoke p f).
Proof.
  intros Hf. destruct p as [h | ]; simpl; [apply Hf | apply keeps_undefined].
Qed.

Create HintDb members discriminated.
#[local] Hint Resolve keeps_ret keeps_undefined keeps_native keeps_this
  keeps_bind keeps_invoke : members.

(** Every call but [Close] leaves the three members as they are. *)
Lemma perform_keeps_members (c : Socket.call) :
  Socket.is_Close c = false -> Socket.keeps_members (Socket.perform c).
Proof.
  intros Hc. destruct c; try discriminate; simpl;
    unfold Socket.discard, Socket.GetInputStream, Socket.GetOutputStream,
      Socket.GetRemoteDevice, Socket.ConnectAsync, Socket.CancelIOAsync;
    auto 10 with members.
Qed.

(** A run of calls with no [Close] among them leaves the members as they
    are. *)
Lemma perform_all_keeps_members (cs : list Socket.call) :
  forall (s : BluetoothSocket) (w : World) (st : Socket.state),
    forallb (fun c => negb (Socket.is_Close c)) cs = true ->
    Socket.perform_all cs (s, w) = Some st ->
    st.1 = s.
Proof.
  induction cs as [ | c cs IH]; intros s w st Hcs Hrun; simpl in *.
  - inversion Hrun. reflexivity.
  - apply andb_prop in Hcs as [Hc Hcs].
    apply negb_true_iff in Hc.
    pose proof (perform_keeps_members c Hc s w) as Hkeep.
    destruct (Socket.perform c (s, w)) as [r [s' w']]. simpl in Hkeep. subst s'.
    destruct r; try discriminate; eapply IH; eauto.
Qed.
End SocketLemmas.

Section SocketClaims.
Context {World : Type} {N : WinRT World}.

(** C9. Invariant of [BluetoothSocket]: from a constructor that returned,
    through any run of calls that has no [Close()] in it, the input-stream
    pointer and the output-stream pointer are non-null and
    [GetInputStream()] and [GetOutputStream()] return the stream objects
    they point to, and the native socket handle is the one the constructor
    made.  [Close()] then returns exactly when the native [Close] on that
    handle returns: it answers [kSuccess], and after it the native socket
    handle and both stream pointers are null. *)
Theorem stream_pointers_live_until_Close
    (w0 w : World) (s : BluetoothSocket) (cs : list Socket.call)
    (st : Socket.state) :
  Socket.make w0 = (Returns s, w) ->
  forallb (fun c => negb (Socket.is_Close c)) cs = true ->
  Socket.perform_all cs (s, w) = Some st ->
  (exists i o,
      input_stream_ st.1 = Some i /\ output_stream_ st.1 = Some o /\
      Socket.GetInputStream st = (Returns i, st) /\
      Socket.GetOutputStream st = (Returns o, st))
  /\ (exists h,
      windows_socket_ st.1 = Some h /\
      (forall w',
          socket_Close h st.2 = (Returns tt, w') ->
          exists st',
            Socket.Close st = (Returns kSuccess, st') /\
            st'.2 = w' /\
            windows_socket_ st'.1 = None /\
            input_stream_ st'.1 = None /\
            output_stream_ st'.1 = None) /\
      (forall e st',
          Socket.Close st = (Returns e, st') ->
          socket_Close h st.2 = (Returns tt, st'.2) /\
          e = kSuccess /\
          windows_socket_ st'.1 = None /\
          input_stream_ st'.1 = None /\
          output_stream_ st'.1 = None)).
Proof.
  intros Hmake Hcs Hrun.
  destruct (make_handle _ _ _ Hmake) as [h Hh].
  apply make_returns in Hmake as [[i Hi] [o Ho]].
  pose proof (perform_all_keeps_members cs s w st Hcs Hrun) as Hkeep.
  destruct st as [s1 w1]. simpl in Hkeep. subst s1. split.
  - exists i, o.
    rewrite GetInputStream_unfold, GetOutputStream_unfold, Hi, Ho. auto.
  - exists h. split; [exact Hh | ]. split.
    + intros w' Hnative. simpl in Hnative.
      exists (closed_socket, w').
      rewrite Close_unfold, Hh, Hnative. auto.
    + intros e st'. rewrite Close_unfold, Hh. simpl.
      destruct (socket_Close h w1) as [[[] | t | ] w'];
        intros H; inversion H; subst; auto.
Qed.

(** C1, as the code has it.  Once [BluetoothSocket::Close()] has returned,
    the socket has no streams: [GetInputStream()] and [GetOutputStream()]
    are undefined.  Once [Close()] has returned on an output stream, a
    [Write] or [Flush] on it returns [kFailed] when the WinRT call throws a
    [std::exception] and [kSuccess] when the WinRT call returns: the
    stream keeps no closed state of its own. *)
Theorem after_Close_no_streams_and_output_reports_native_faults :
  (forall (st st' : Socket.state) e,
      Socket.Close st = (Returns e, st') ->
      Socket.GetInputStream st' = (Undefined, st') /\
      Socket.GetOutputStream st' = (Undefined, st'))
  /\ (forall self h e (w w1 : World),
      out_winrt_stream_ self = Some h ->
      OutputStream.Close self w = (Returns e, w1) ->
      (forall bytes w2,
          Z.of_nat (length bytes) < 2 ^ 32 ->
          out_WriteAsync h (OutputStream.Write_buffer bytes) w1
            = (Throws std_exception, w2) ->
          OutputStream.Write self bytes w1 = (Returns kFailed, w2))
      /\ (forall bytes w2,
          Z.of_nat (length bytes) < 2 ^ 32 ->
          out_WriteAsync h (OutputStream.Write_buffer bytes) w1
            = (Returns tt, w2) ->
          OutputStream.Write self bytes w1 = (Returns kSuccess, w2))
      /\ (forall w2,
          out_FlushAsync_get h w1 = (Throws std_exception, w2) ->
          OutputStream.Flush self w1 = (Returns kFailed, w2))
      /\ (forall w2,
          out_FlushAsync_get h w1 = (Returns tt, w2) ->
          OutputStream.Flush self w1 = (Returns kSuccess, w2))).
Proof.
  split.
  - intros st st' e Hclose. apply Close_returns in Hclose as [_ Hs].
    destruct st' as [s' w']. simpl in Hs. subst s'.
    rewrite GetInputStream_unfold, GetOutputStream_unfold. auto.
  - intros self h e w w1 Hs _. repeat split.
    + intros bytes w2 Hlen Hw. rewrite Write_unfold, Hs, Hw by exact Hlen.
      reflexivity.
    + intros bytes w2 Hlen Hw. rewrite Write_unfold, Hs, Hw by exact Hlen.
      reflexivity.
    + intros w2 Hf. unfold OutputStream.Flush.
      rewrite guarded_call_cases, Hs, Hf. reflexivity.
    + intros w2 Hf. unfold OutputStream.Flush.
      rewrite guarded_call_cases, Hs, Hf. reflexivity.
Qed.
End SocketClaims.

(* ===================================================================== *)
(** * The code on concrete connections                                    *)
(* ===================================================================== *)

(** [BluetoothSocket()] over [Sim] builds [sim_socket]. *)
Example make_sim_socket :
  Socket.make sim_connected = (Returns sim_socket, sim_connected).
Proof. reflexivity. Qed.

(** C1 fails.  On a healthy connection, [Close()] on the input stream
    returns success and the [Read(8)] that follows returns a success
    result; [Close()] on the output stream returns success and the [Write]
    and [Flush] that follow return [kSuccess].  Where the native layer
    raises [std::exception] on a closed stream, the [Read] after [Close()]
    leaves by that exception and the [Write] returns [kFailed], not [kIo].
    And once [Close()] on the socket has returned, [GetInputStream()] and
    [GetOutputStream()] are undefined. *)
Lemma operations_after_Close_report_no_io_failure :
  (exists w1,
      InputStream.Close sim_input sim_connected = (Returns kSuccess, w1) /\
      InputStream.Read sim_input 8 w1 = (Returns (ExceptionOr_result []), w1))
  /\ (exists w1,
      OutputStream.Close sim_output sim_connected = (Returns kSuccess, w1) /\
      OutputStream.Write sim_output [x68; x69] w1 = (Returns kSuccess, w1) /\
      OutputStream.Flush sim_output w1 = (Returns kSuccess, w1))
  /\ (exists w1,
      InputStream.Close sim_input (sim_strict std_exception)
        = (Returns kSuccess, w1) /\
      InputStream.Read sim_input 8 w1 = (Throws std_exception, w1))
  /\ (exists w1,
      OutputStream.Close sim_output (sim_strict std_exception)
        = (Returns kSuccess, w1) /\
      OutputStream.Write sim_output [x68; x69] w1 = (Returns kFailed, w1))
  /\ (exists w1,
      Socket.Close (sim_socket, sim_connected)
        = (Returns kSuccess, (closed_socket, w1)) /\
      Socket.GetInputStream (closed_socket, w1)
        = (Undefined, (closed_socket, w1)) /\
      Socket.GetOutputStream (closed_socket, w1)
        = (Undefined, (closed_socket, w1))).
Proof.
  repeat split; eexists; repeat split; reflexivity.
Qed.

(** C2 fails.  On a healthy connection the first [Close()] returns
    [kSuccess] and sets [windows_socket_] to [nullptr]; the second
    [Close()] calls [windows_socket_.Close()] through that null handle
    and is undefined: it does not return success. *)
Theorem second_Close_is_undefined :
  exists st1,
    Socket.Close (sim_socket, sim_connected) = (Returns kSuccess, st1) /\
    windows_socket_ st1.1 = None /\
    Socket.Close st1 = (Undefined, st1).
Proof.
  eexists. repeat split; reflexivity.
Qed.

(** C3 fails.  When the native teardown raises [std::exception], [Close()]
    returns nothing, [kIo] or other: the exception leaves [Close()], and
    the socket keeps its native handle and both streams, as before the
    call. *)
Theorem Close_fault_escapes_and_leaves_socket_open :
  Socket.Close (sim_socket, sim_stuck std_exception)
    = (Throws std_exception, (sim_socket, sim_stuck std_exception))
  /\ windows_socket_ sim_socket = Some 1%positive
  /\ Socket.GetInputStream (sim_socket, sim_stuck std_exception)
    = (Returns sim_input, (sim_socket, sim_stuck std_exception)).
Proof.
  repeat split; reflexivity.
Qed.

(** C4 fails.  On a broken connection whose native calls raise
    [std::exception], [Read(16)] lets the exception out to its caller,
    where the [Write] and [Flush] beside it catch the same exception and
    return [kFailed]. *)
Theorem Read_lets_exception_out :
  InputStream.Read sim_input 16 (sim_broken std_exception)
    = (Throws std_exception, sim_broken std_exception)
  /\ OutputStream.Write sim_output [x68; x69] (sim_broken std_exception)
    = (Returns kFailed, sim_broken std_exception)
  /\ OutputStream.Flush sim_output (sim_broken std_exception)
    = (Returns kFailed, sim_broken std_exception).
Proof.
  repeat split; reflexivity.
Qed.

(** C5 fails.  On a broken connection [Read(8)] does not fail with an I/O
    error kind: whichever exception the native read raises, [Read]
    returns no [ExceptionOr] at all, so none that holds [kIo]. *)
Theorem Read_on_broken_connection_returns_no_error (t : thrown) (e : Exception) :
  InputStream.Read sim_input 8 (sim_broken t) = (Throws t, sim_broken t)
  /\ (InputStream.Read sim_input 8 (sim_broken t)).1
     <> Returns (ExceptionOr_exception e).
Proof.
  destruct t; split; try reflexivity; discriminate.
Qed.

(** C8 fails.  For a connected socket whose peer the link layer knows,
    [GetRemoteDevice()] returns [nullptr]. *)
Theorem GetRemoteDevice_of_connected_socket_is_null :
  sim_peer sim_connected = Some peer_address
  /\ Socket.GetRemoteDevice (sim_socket, sim_connected)
     = (Returns None, (sim_socket, sim_connected)).
Proof.
  split; reflexivity.
Qed.

(* ===================================================================== *)
(** * The WifiLan medium                                                  *)
(* ===================================================================== *)

Section Connect.
Import WifiLan.
Variable remote_service : WifiLanService.
Variables (cancellation_flag : nat -> bool) (attempt : nat -> progress).

(** Polling from look [n] with the flag set at look [n + d] and the
    connection pending until then ends with no socket. *)
Lemma ConnectToService_from_cancelled (d : nat) :
  forall (n fuel : nat),
    cancellation_flag (n + d)%nat = true ->
    (forall k, (n <= k < n + d)%nat -> attempt k = Pending) ->
    (d < fuel)%nat ->
    ConnectToService_from fuel remote_service cancellation_flag attempt n
      = Some None.
Proof.
  induction d as [ | d IH]; intros n fuel Hflag Hpending Hfuel.
  - destruct fuel as [ | fuel]; [lia | ]. simpl.
    replace (n + 0)%nat with n in Hflag by lia. rewrite Hflag. reflexivity.
  - destruct fuel as [ | fuel]; [lia | ]. simpl.
    destruct (cancellation_flag n); [reflexivity | ].
    rewrite Hpending by lia.
    apply IH; [ | | lia].
    + replace (S n + d)%nat with (n + S d)%nat by lia. exact Hflag.
    + intros k Hk. apply Hpending. lia.
Qed.

(** A socket comes out of the polling only from an established connection
    seen with the flag clear, at that look and at every look before. *)
Lemma ConnectToService_from_socket (fuel : nat) :
  forall (n : nat) (s : WifiLanSocket),
    ConnectToService_from fuel remote_service cancellation_flag attempt n
      = Some (Some s) ->
    connected s = true /\ socket_remote s = Some remote_service /\
    exists m input output,
      (n <= m < n + fuel)%nat /\
      attempt m = Established input output /\
      forall k, (n <= k <= m)%nat -> cancellation_flag k = false.
Proof.
  induction fuel as [ | fuel IH]; intros n s H; simpl in H; [discriminate | ].
  destruct (cancellation_flag n) eqn:Hflag; [discriminate | ].
  destruct (attempt n) as [ | input output | ] eqn:Hattempt.
  - apply IH in H as (Hc & Hr & m & i & o & Hm & Ha & Hk).
    split; [exact Hc | ]. split; [exact Hr | ].
    exists m, i, o. split; [lia | ]. split; [exact Ha | ].
    intros k Hrange. destruct (decide (k = n)) as [-> | Hne]; [exact Hflag | ].
    apply Hk. lia.
  - inversion H; subst; clear H. split; [reflexivity | ]. split; [reflexivity | ].
    exists n, input, output. split; [lia | ]. split; [exact Hattempt | ].
    intros k Hrange. replace k with n by lia. exact Hflag.
  - discriminate.
Qed.
End Connect.

(** C6. A call [ConnectToService(remote_service, cancellation_flag)] whose
    flag is set before the call (look 0) or during it (a later look [n],
    the connection still pending until then) returns the "no socket"
    sentinel, and does so within [n + 1] looks; a call that returns a
    socket returns one that is connected to [remote_service], built from
    an established connection with the flag clear at every look so far. *)
Theorem ConnectToService_cancelled_returns_no_socket
    (remote_service : WifiLan.WifiLanService)
    (cancellation_flag : nat -> bool) (attempt : nat -> WifiLan.progress) :
  (forall n fuel,
      cancellation_flag n = true ->
      (forall k, (k < n)%nat -> attempt k = WifiLan.Pending) ->
      (n < fuel)%nat ->
      WifiLan.ConnectToService fuel remote_service cancellation_flag attempt
        = Some None)
  /\ (forall fuel s,
      WifiLan.ConnectToService fuel remote_service cancellation_flag attempt
        = Some (Some s) ->
      WifiLan.connected s = true /\
      WifiLan.socket_remote s = Some remote_service /\
      exists m input output,
        (m < fuel)%nat /\
        attempt m = WifiLan.Established input output /\
        forall k, (k <= m)%nat -> cancellation_flag k = false).
Proof.
  split.
  - intros n fuel Hflag Hpending Hfuel. unfold WifiLan.ConnectToService.
    apply (ConnectToService_from_cancelled remote_service cancellation_flag
             attempt n 0 fuel); [exact Hflag | | exact Hfuel].
    intros k Hk. apply Hpending. lia.
  - intros fuel s H. unfold WifiLan.ConnectToService in H.
    apply ConnectToService_from_socket in H
      as (Hc & Hr & m & i & o & Hm & Ha & Hk).
    split; [exact Hc | ]. split; [exact Hr | ].
    exists m, i, o. split; [lia | ]. split; [exact Ha | ].
    intros k Hle. apply Hk. lia.
Qed.

Section DiscoveryClaims.
Import WifiLan.
Context {Handler : Type}.
Implicit Types (m : Medium Handler) (cb : DiscoveredServiceCallback Handler).

Lemma StartDiscovery_registers initiated cb m m1 :
  StartDiscovery initiated cb m = (true, m1) ->
  registrations m1 = <[instance cb := cb]> (registrations m).
Proof.
  unfold StartDiscovery. destruct initiated; intros H; inversion H.
  reflexivity.
Qed.

Lemma StopDiscovery_other cb cb2 m :
  instance cb2 <> instance cb ->
  registrations (StopDiscovery cb2 m) !! instance cb
    = registrations m !! instance cb.
Proof.
  intros Hne. unfold StopDiscovery.
  destruct (registrations m !! instance cb2); [ | reflexivity].
  simpl. apply lookup_delete_ne. exact Hne.
Qed.

Lemma StopDiscovery_same cb m :
  registrations (StopDiscovery cb m) !! instance cb = None.
Proof.
  unfold StopDiscovery.
  destruct (registrations m !! instance cb) eqn:Hreg; [ | exact Hreg].
  simpl. apply lookup_delete_eq.
Qed.

(** C7. For a medium in the Discovering state entered by
    [StartDiscovery(cb)], [StopDiscovery(cb2)] with a callback of another
    identity leaves the registration of [cb] active and as it was, and
    leaves the whole medium as it was when [cb] is the one registration;
    [StopDiscovery(cb)] ends the registration, and a [StopDiscovery] that
    ends it has the identity of [cb]. *)
Theorem StopDiscovery_matches_by_identity initiated cb cb2 m m1 :
  StartDiscovery initiated cb m = (true, m1) ->
  Discovering cb m1
  /\ (instance cb2 <> instance cb ->
      Discovering cb (StopDiscovery cb2 m1) /\
      (m = Idle -> StopDiscovery cb2 m1 = m1))
  /\ ~ Discovering cb (StopDiscovery cb m1)
  /\ (m = Idle -> StopDiscovery cb m1 = Idle)
  /\ (~ Discovering cb (StopDiscovery cb2 m1) -> instance cb2 = instance cb).
Proof.
  intros Hstart. apply StartDiscovery_registers in Hstart.
  assert (Hactive : Discovering cb m1).
  { unfold Discovering. rewrite Hstart. apply lookup_insert_eq. }
  assert (Hother : instance cb2 <> instance cb ->
                   Discovering cb (StopDiscovery cb2 m1)).
  { intros Hne. unfold Discovering. rewrite StopDiscovery_other by exact Hne.
    exact Hactive. }
  split; [exact Hactive | ]. split; [ | split; [ | split]].
  - intros Hne. split; [auto | ].
    intros ->. unfold StopDiscovery. rewrite Hstart. simpl.
    rewrite lookup_insert_ne by auto. rewrite lookup_empty. reflexivity.
  - unfold Discovering. rewrite StopDiscovery_same. discriminate.
  - intros ->. unfold StopDiscovery, Idle. rewrite Hstart. simpl.
    rewrite lookup_insert_eq. f_equal.
    rewrite delete_insert_eq. apply delete_empty.
  - intros Hstopped. destruct (decide (instance cb2 = instance cb)) as [ | Hne];
      [assumption | ]. exfalso. apply Hstopped. auto.
Qed.
End DiscoveryClaims.

(* ===================================================================== *)
(** * The theorems at concrete inputs                                     *)
(* ===================================================================== *)

(** [Read(4)] on the healthy connection returns the first four bytes; the
    guarded operations return [kFailed] where the native call raises
    [std::exception]. *)
Lemma Read_has_no_failure_branch_siblings_do_witness :
  (InputStream.Read sim_input 4 sim_connected
     = (Returns (ExceptionOr_result [x68; x65; x6c; x6c]),
        (InputStream.Read sim_input 4 sim_connected).2)
   /\ ExceptionOr_ok (ExceptionOr_result (T := ByteArray) [x68; x65; x6c; x6c])
      = true)
  /\ (out_WriteAsync 3%positive (OutputStream.Write_buffer [x68; x69])
        (sim_broken std_exception)
        = (Throws std_exception, sim_broken std_exception)
      /\ OutputStream.Write sim_output [x68; x69] (sim_broken std_exception)
         = (Returns kFailed, sim_broken std_exception))
  /\ (out_FlushAsync_get 3%positive (sim_broken std_exception)
        = (Throws std_exception, sim_broken std_exception)
      /\ OutputStream.Flush sim_output (sim_broken std_exception)
         = (Returns kFailed, sim_broken std_exception))
  /\ (in_Close 2%positive (sim_stuck std_exception)
        = (Throws std_exception, sim_stuck std_exception)
      /\ InputStream.Close sim_input (sim_stuck std_exception)
         = (Returns kFailed, sim_stuck std_exception))
  /\ (out_Close 3%positive (sim_stuck std_exception)
        = (Throws std_exception, sim_stuck std_exception)
      /\ OutputStream.Close sim_output (sim_stuck std_exception)
         = (Returns kFailed, sim_stuck std_exception)).
Proof.
  destruct (@Read_has_no_failure_branch_siblings_do Sim Sim_WinRT)
    as (HR & HW & HF & HIC & HOC).
  split; [split; [reflexivity | ] | ].
  - exact (proj1 (HR sim_input 4 sim_connected _ _ eq_refl)).
  - split; [split; [reflexivity | ] | ].
    + apply (HW sim_output 3%positive); [reflexivity | simpl; lia | reflexivity].
    + split; [split; [reflexivity | ] | ].
      * apply (HF sim_output 3%positive); reflexivity.
      * split; (split; [reflexivity | ]).
        -- apply (HIC sim_input 2%positive); reflexivity.
        -- apply (HOC sim_output 3%positive); reflexivity.
Defined.

(** A socket built on the healthy connection, read from, written to and
    flushed, has both streams and its native socket; [Close()] on it
    returns [kSuccess] and leaves the three members null. *)
Lemma stream_pointers_live_until_Close_witness :
  let cs := [Socket.call_GetInputStream; Socket.call_Read 4;
             Socket.call_Write [x68; x69]; Socket.call_Flush;
             Socket.call_GetRemoteDevice] in
  Socket.make sim_connected = (Returns sim_socket, sim_connected)
  /\ forallb (fun c => negb (Socket.is_Close c)) cs = true
  /\ exists st,
      Socket.perform_all cs (sim_socket, sim_connected) = Some st
      /\ Socket.GetInputStream st = (Returns sim_input, st)
      /\ Socket.GetOutputStream st = (Returns sim_output, st)
      /\ windows_socket_ st.1 = Some 1%positive
      /\ socket_Close 1%positive st.2
         = (Returns tt, (Socket.Close st).2.2)
      /\ Socket.Close st
         = (Returns kSuccess, (closed_socket, (Socket.Close st).2.2))
      /\ exists st',
          Socket.Close st = (Returns kSuccess, st')
          /\ windows_socket_ st'.1 = None
          /\ input_stream_ st'.1 = None
          /\ output_stream_ st'.1 = None.
Proof.
  intros cs. split; [reflexivity | ]. split; [reflexivity | ].
  eexists. split; [reflexivity | ].
  edestruct (stream_pointers_live_until_Close sim_connected sim_connected
               sim_socket cs)
    as [(i & o & Hi & Ho & Hgi & Hgo) (h & Hh & Hcloses & Hclosed)];
    [reflexivity | reflexivity | reflexivity | ].
  assert (Hin : i = sim_input) by (simpl in Hi; congruence).
  assert (Hout : o = sim_output) by (simpl in Ho; congruence).
  assert (Hone : h = 1%positive) by (simpl in Hh; congruence).
  subst i o h.
  split; [exact Hgi | ]. split; [exact Hgo | ]. split; [exact Hh | ].
  split; [reflexivity | ]. split; [reflexivity | ].
  destruct (Hcloses _ eq_refl) as (st' & Hclose & _ & Hw & Hi' & Ho').
  exists st'. split; [exact Hclose | ]. split; [exact Hw | ].
  split; [exact Hi' | exact Ho'].
Defined.

(** The closed socket has no streams; the closed output stream answers
    with what the native layer does: [kFailed] where it raises
    [std::exception], [kSuccess] where it returns. *)
Lemma after_Close_no_streams_and_output_reports_native_faults_witness :
  (exists st',
      Socket.Close (sim_socket, sim_connected) = (Returns kSuccess, st')
      /\ Socket.GetInputStream st' = (Undefined, st')
      /\ Socket.GetOutputStream st' = (Undefined, st'))
  /\ (exists w1,
      OutputStream.Close sim_output (sim_strict std_exception)
        = (Returns kSuccess, w1)
      /\ out_WriteAsync 3%positive (OutputStream.Write_buffer [x68; x69]) w1
         = (Throws std_exception, w1)
      /\ OutputStream.Write sim_output [x68; x69] w1 = (Returns kFailed, w1)
      /\ out_FlushAsync_get 3%positive w1 = (Throws std_exception, w1)
      /\ OutputStream.Flush sim_output w1 = (Returns kFailed, w1))
  /\ (exists w1,
      OutputStream.Close sim_output sim_connected = (Returns kSuccess, w1)
      /\ out_WriteAsync 3%positive (OutputStream.Write_buffer [x68; x69]) w1
         = (Returns tt, w1)
      /\ OutputStream.Write sim_output [x68; x69] w1 = (Returns kSuccess, w1)
      /\ out_FlushAsync_get 3%positive w1 = (Returns tt, w1)
      /\ OutputStream.Flush sim_output w1 = (Returns kSuccess, w1)).
Proof.
  destruct (@after_Close_no_streams_and_output_reports_native_faults
              Sim Sim_WinRT) as [Hsocket Hstream].
  split; [ | split].
  - eexists. split; [reflexivity | ].
    apply (Hsocket (sim_socket, sim_connected) _ kSuccess). reflexivity.
  - eexists. split; [reflexivity | ].
    destruct (Hstream sim_output 3%positive kSuccess
                (sim_strict std_exception) _ eq_refl eq_refl)
      as (Hw & _ & Hf & _).
    split; [reflexivity | ]. split.
    + apply Hw; [simpl; lia | reflexivity].
    + split; [reflexivity | ]. apply Hf. reflexivity.
  - eexists. split; [reflexivity | ].
    destruct (Hstream sim_output 3%positive kSuccess sim_connected _
                eq_refl eq_refl)
      as (_ & Hw & _ & Hf).
    split; [reflexivity | ]. split.
    + apply Hw; [simpl; lia | reflexivity].
    + split; [reflexivity | ]. apply Hf. reflexivity.
Defined.

(** A flag set at the third look, the connection still pending: no socket.
    A connection established at the second look, the flag never set: a
    connected socket. *)
Lemma ConnectToService_cancelled_returns_no_socket_witness :
  let remote := WifiLan.mkService [x0a; x00; x00; x05] 4242 in
  (let flag := fun n => (2 <=? n)%nat in
   let attempt := fun _ : nat => WifiLan.Pending in
   flag 2%nat = true
   /\ (forall k, (k < 2)%nat -> attempt k = WifiLan.Pending)
   /\ (2 < 5)%nat
   /\ WifiLan.ConnectToService 5 remote flag attempt = Some None)
  /\ (let flag := fun _ : nat => false in
      let attempt := fun n =>
        if (n =? 1)%nat then WifiLan.Established 7%positive 8%positive else WifiLan.Pending in
      let s := WifiLan.mkWifiLanSocket (Some 7%positive) (Some 8%positive)
                 (Some remote) false in
      WifiLan.ConnectToService 3 remote flag attempt = Some (Some s)
      /\ WifiLan.connected s = true
      /\ WifiLan.socket_remote s = Some remote).
Proof.
  intros remote. split.
  - intros flag attempt.
    assert (Hpending : forall k, (k < 2)%nat -> attempt k = WifiLan.Pending)
      by reflexivity.
    split; [reflexivity | ]. split; [exact Hpending | ]. split; [lia | ].
    apply (proj1 (ConnectToService_cancelled_returns_no_socket
                    remote flag attempt) 2%nat 5%nat);
      [reflexivity | exact Hpending | lia].
  - intros flag attempt s. split; [reflexivity | ].
    destruct (proj2 (ConnectToService_cancelled_returns_no_socket
                       remote flag attempt) 3%nat s eq_refl)
      as (Hc & Hr & _).
    split; [exact Hc | exact Hr].
Defined.

(** Two callback instances that hold the same functions: stopping with
    the other one leaves discovery as it is, stopping with the registered
    one brings the medium back to idle. *)
Lemma StopDiscovery_matches_by_identity_witness :
  let cb := WifiLan.mkCallback nat 1 10%nat 11%nat in
  let cb2 := WifiLan.mkCallback nat 2 10%nat 11%nat in
  let m1 := (WifiLan.StartDiscovery true cb WifiLan.Idle).2 in
  WifiLan.StartDiscovery true cb WifiLan.Idle = (true, m1)
  /\ WifiLan.instance cb2 <> WifiLan.instance cb
  /\ WifiLan.Discovering cb m1
  /\ WifiLan.Discovering cb (WifiLan.StopDiscovery cb2 m1)
  /\ WifiLan.StopDiscovery cb2 m1 = m1
  /\ ~ WifiLan.Discovering cb (WifiLan.StopDiscovery cb m1)
  /\ WifiLan.StopDiscovery cb m1 = WifiLan.Idle
  /\ WifiLan.instance cb = WifiLan.instance cb.
Proof.
  intros cb cb2 m1.
  assert (Hne : WifiLan.instance cb2 <> WifiLan.instance cb)
    by (simpl; lia).
  destruct (StopDiscovery_matches_by_identity true cb cb2 WifiLan.Idle m1
              eq_refl) as (Hactive & Hother & Hgone & Hidle & _).
  destruct (StopDiscovery_matches_by_identity true cb cb WifiLan.Idle m1
              eq_refl) as (_ & _ & _ & _ & Honly).
  destruct (Hother Hne) as [Hstill Hnoop].
  split; [reflexivity | ]. split; [exact Hne | ]. split; [exact Hactive | ].
  split; [exact Hstill | ]. split; [exact (Hnoop eq_refl) | ].
  split; [exact Hgone | ]. split; [exact (Hidle eq_refl) | ].
  exact (Honly Hgone).
Defined.

(* ===================================================================== *)
(** * Further properties of the streams                                   *)
(* ===================================================================== *)

Section StreamProperties.
Context {World : Type} {N : WinRT World}.

(** A successful [Read(size)] carries at most the low 32 bits of [size]
    bytes: at most [size] bytes when [size] is not negative, and none
    when [size] is 0 or another multiple of 2^32. *)
Theorem Read_length_bounds (self : BluetoothInputStream) (size : Z)
    (w w' : World) (bytes : ByteArray) :
  ReadAsync_fits ->
  InputStream.Read self size w = (Returns (ExceptionOr_result bytes), w') ->
  Z.of_nat (length bytes) <= to_uint32 size
  /\ (0 <= size -> Z.of_nat (length bytes) <= size)
  /\ (to_uint32 size = 0 -> bytes = []).
Proof.
  intros Hfit. rewrite Read_unfold.
  destruct (in_winrt_stream_ self) as [h | ]; [ | discriminate].
  destruct (in_ReadAsync h (Buffer_new size) (to_uint32 size) w)
    as [[b | t | ] w1] eqn:Hread; try discriminate.
  assert (Hrange : 0 <= to_uint32 size < 2 ^ 32)
    by (unfold to_uint32; apply Z.mod_pos_bound; lia).
  apply Hfit in Hread; [ | simpl; lia].
  change (Capacity (Buffer_new size)) with (to_uint32 size) in Hread.
  destruct (DataReader_FromBuffer b w1) as [[[] | t | ] w2]; try discriminate.
  intros H. inversion H; subst; clear H.
  assert (Hlen : Z.of_nat (length (ByteArray_of (data b) (Length b)))
                 <= to_uint32 size).
  { unfold ByteArray_of. rewrite length_take. lia. }
  split; [exact Hlen | ]. split.
  - intros Hsize.
    assert (to_uint32 size <= size) by (unfold to_uint32; apply Z.mod_le; lia).
    lia.
  - intros Hzero. rewrite Hzero in Hlen.
    destruct (ByteArray_of (data b) (Length b)); [reflexivity | ].
    simpl in Hlen. lia.
Qed.

(** [Write] never sets the [Length] of the buffer it fills, so no byte of
    it is in use when [WriteAsync] gets it: to a native layer that looks
    at the bytes in use only, two byte arrays of one size are the same
    [Write]. *)
Theorem Write_passes_no_bytes_in_use (self : BluetoothOutputStream)
    (bytes1 bytes2 : ByteArray) (w : World) :
  WriteAsync_reads_in_use ->
  length bytes1 = length bytes2 ->
  Z.of_nat (length bytes1) < 2 ^ 32 ->
  Buffer_in_use (OutputStream.Write_buffer bytes1) = []
  /\ OutputStream.Write self bytes1 w = OutputStream.Write self bytes2 w.
Proof.
  intros Hnative Hlen Hfit. split; [reflexivity | ].
  rewrite !Write_unfold by lia.
  destruct (out_winrt_stream_ self) as [h | ]; [ | reflexivity].
  rewrite (Hnative h (OutputStream.Write_buffer bytes1)
             (OutputStream.Write_buffer bytes2) w); [reflexivity | | | ].
  - unfold OutputStream.Write_buffer. simpl. rewrite Hlen. reflexivity.
  - reflexivity.
  - reflexivity.
Qed.

(** The handlers of [Write], [Flush] and the two stream [Close] catch
    [std::exception] only: any other object the WinRT call throws leaves
    the operation. *)
Theorem guarded_operations_let_other_exceptions_out :
  (forall self h bytes (w w' : World),
      out_winrt_stream_ self = Some h ->
      Z.of_nat (length bytes) < 2 ^ 32 ->
      out_WriteAsync h (OutputStream.Write_buffer bytes) w
        = (Throws foreign_exception, w') ->
      OutputStream.Write self bytes w = (Throws foreign_exception, w'))
  /\ (forall self h (w w' : World),
      out_winrt_stream_ self = Some h ->
      out_FlushAsync_get h w = (Throws foreign_exception, w') ->
      OutputStream.Flush self w = (Throws foreign_exception, w'))
  /\ (forall self h (w w' : World),
      in_winrt_stream_ self = Some h ->
      in_Close h w = (Throws foreign_exception, w') ->
      InputStream.Close self w = (Throws foreign_exception, w'))
  /\ (forall self h (w w' : World),
      out_winrt_stream_ self = Some h ->
      out_Close h w = (Throws foreign_exception, w') ->
      OutputStream.Close self w = (Throws foreign_exception, w')).
Proof.
  repeat split.
  - intros self h bytes w w' Hs Hlen Hw.
    rewrite Write_unfold, Hs, Hw by exact Hlen. reflexivity.
  - intros self h w w' Hs Hf. unfold OutputStream.Flush.
    rewrite guarded_call_cases, Hs, Hf. reflexivity.
  - intros self h w w' Hs Hc. unfold InputStream.Close.
    rewrite guarded_call_cases, Hs, Hc. reflexivity.
  - intros self h w w' Hs Hc. unfold OutputStream.Close.
    rewrite guarded_call_cases, Hs, Hc. reflexivity.
Qed.

(** What a guarded call returns is [kSuccess] or [kFailed]. *)
Lemma guarded_call_returns (p : option handle) (f : handle -> M World unit)
    (w w' : World) (e : Exception) :
  try_catch_std (invoke p f) (ret kFailed) (ret kSuccess) w = (Returns e, w') ->
  e = kSuccess \/ e = kFailed.
Proof.
  rewrite guarded_call_cases. destruct p as [h | ]; [ | discriminate].
  destruct (f h w) as [[[] | [ | ] | ] w1]; intros H; inversion H; auto.
Qed.

(** [Read] lets every exception out, whatever its type: that of
    [ReadAsync], and that of [DataReader::FromBuffer] after a read that
    went well, the bytes read being lost with it. *)
Theorem Read_lets_every_exception_out (self : BluetoothInputStream)
    (h : handle) (size : Z) (t : thrown) :
  in_winrt_stream_ self = Some h ->
  (forall (w w' : World),
      in_ReadAsync h (Buffer_new size) (to_uint32 size) w = (Throws t, w') ->
      InputStream.Read self size w = (Throws t, w'))
  /\ (forall (w w1 w' : World) b,
      in_ReadAsync h (Buffer_new size) (to_uint32 size) w = (Returns b, w1) ->
      DataReader_FromBuffer b w1 = (Throws t, w') ->
      InputStream.Read self size w = (Throws t, w')).
Proof.
  intros Hs. split.
  - intros w w' Hr. rewrite Read_unfold, Hs, Hr. reflexivity.
  - intros w w1 w' b Hr Hd. rewrite Read_unfold, Hs, Hr, Hd. reflexivity.
Qed.
End StreamProperties.

(* ===================================================================== *)
(** * Further properties of the socket                                    *)
(* ===================================================================== *)

Section SocketProperties.
Context {World : Type} {N : WinRT World}.

(** No operation of the socket or of its streams returns [kIo]: [Write],
    [Flush] and the two stream [Close] return [kSuccess] or [kFailed],
    and [BluetoothSocket::Close] returns [kSuccess] only. *)
Theorem no_operation_returns_kIo :
  (forall self bytes (w w' : World) e,
      OutputStream.Write self bytes w = (Returns e, w') ->
      e = kSuccess \/ e = kFailed)
  /\ (forall self (w w' : World) e,
      OutputStream.Flush self w = (Returns e, w') ->
      e = kSuccess \/ e = kFailed)
  /\ (forall self (w w' : World) e,
      InputStream.Close self w = (Returns e, w') ->
      e = kSuccess \/ e = kFailed)
  /\ (forall self (w w' : World) e,
      OutputStream.Close self w = (Returns e, w') ->
      e = kSuccess \/ e = kFailed)
  /\ (forall (st st' : Socket.state) e,
      Socket.Close st = (Returns e, st') -> e = kSuccess).
Proof.
  repeat split.
  - intros self bytes w w' e. unfold OutputStream.Write, OutputStream.memcpy_into.
    destruct (Z.of_nat (length bytes) <=? _); [ | discriminate].
    unfold bind at 1. unfold ret at 1. apply guarded_call_returns.
  - intros self w w' e. apply guarded_call_returns.
  - intros self w w' e. apply guarded_call_returns.
  - intros self w w' e. apply guarded_call_returns.
  - intros st st' e H. apply Close_returns in H as [-> _]. reflexivity.
Qed.

(** [BluetoothSocket::Close] has no handler: whatever the native [Close]
    throws leaves it, the three members stay as they were, and a later
    [Close()] whose native [Close] returns closes the socket. *)
Theorem Close_throws_and_can_be_retried (s : BluetoothSocket) (h : handle)
    (w w1 w2 : World) (t : thrown) :
  windows_socket_ s = Some h ->
  socket_Close h w = (Throws t, w1) ->
  socket_Close h w1 = (Returns tt, w2) ->
  Socket.Close (s, w) = (Throws t, (s, w1))
  /\ Socket.Close (s, w1) = (Returns kSuccess, (closed_socket, w2)).
Proof.
  intros Hs Hfirst Hsecond. split.
  - apply (Close_throws s h); assumption.
  - rewrite Close_unfold, Hs, Hsecond. reflexivity.
Qed.

(** Once [Close()] has returned, every method of the socket but
    [GetRemoteDevice()] is undefined: each goes through a member that is
    null, and so is every run of calls that has one of them. *)
Theorem use_after_Close_is_undefined (st st' : Socket.state) (e : Exception)
    (c : Socket.call) (cs : list Socket.call) :
  Socket.Close st = (Returns e, st') ->
  c <> Socket.call_GetRemoteDevice ->
  Socket.perform c st' = (Undefined, st')
  /\ Socket.perform_all (c :: cs) st' = None.
Proof.
  intros Hclose Hc. apply Close_returns in Hclose as [_ Hs].
  destruct st' as [s' w']. simpl in Hs. subst s'.
  assert (Hperform : Socket.perform c (closed_socket, w')
                     = (Undefined, (closed_socket, w'))).
  { destruct c; try reflexivity. contradiction. }
  split; [exact Hperform | ]. simpl. rewrite Hperform. reflexivity.
Qed.

(** The first [Close()] of a constructed socket, after any run of calls
    on the socket and its streams (their own [Close()] among them), goes
    to the native socket the constructor made, and returns [kSuccess] with
    the socket closed when the native [Close] returns. *)
Theorem first_Close_succeeds_when_native_Close_does
    (w0 w : World) (s : BluetoothSocket) (cs : list Socket.call)
    (st : Socket.state) :
  Socket.make w0 = (Returns s, w) ->
  forallb (fun c => negb (Socket.is_Close c)) cs = true ->
  Socket.perform_all cs (s, w) = Some st ->
  exists h,
    windows_socket_ s = Some h
    /\ forall w',
        socket_Close h st.2 = (Returns tt, w') ->
        Socket.Close st = (Returns kSuccess, (closed_socket, w')).
Proof.
  intros Hmake Hcs Hrun.
  destruct (make_handle _ _ _ Hmake) as [h Hh].
  pose proof (perform_all_keeps_members cs s w st Hcs Hrun) as Hkeep.
  destruct st as [s1 w1]. simpl in Hkeep. subst s1.
  exists h. split; [exact Hh | ].
  intros w' Hnative. simpl in Hnative.
  rewrite Close_unfold, Hh, Hnative. reflexivity.
Qed.
End SocketProperties.

(* ===================================================================== *)
(** * The further properties at concrete inputs                           *)
(* ===================================================================== *)

(** [Sim] keeps to what the wrapper relies on in [IBuffer]. *)
Lemma Sim_ReadAsync_fits : ReadAsync_fits (N := Sim_WinRT).
Proof.
  intros h b n w0 w1 b' Hb. simpl. unfold sim_stream_call, sim_raise.
  destruct (sim_input_closed w0).
  - destruct (sim_after_close w0); [discriminate | ].
    unfold ret. intros H. inversion H; subst. lia.
  - destruct (sim_link w0); [discriminate | ].
    unfold sim_read. intros H. inversion H; subst; clear H. simpl.
    rewrite length_take. lia.
Qed.

Lemma Sim_WriteAsync_reads_in_use : WriteAsync_reads_in_use (N := Sim_WinRT).
Proof.
  intros h b b' w0 _ _ Huse. simpl. unfold sim_stream_call, sim_raise.
  destruct (sim_output_closed w0); [reflexivity | ].
  destruct (sim_link w0); [reflexivity | ].
  unfold sim_write. unfold Buffer_in_use, ByteArray_of in Huse.
  rewrite Huse. reflexivity.
Qed.

(** [Read(4)] of five waiting bytes carries four; [Read(2^32)] carries
    none. *)
Lemma Read_length_bounds_witness :
  ReadAsync_fits (N := Sim_WinRT)
  /\ InputStream.Read sim_input 4 sim_connected
     = (Returns (ExceptionOr_result [x68; x65; x6c; x6c]),
        (InputStream.Read sim_input 4 sim_connected).2)
  /\ Z.of_nat (length [x68; x65; x6c; x6c]) <= to_uint32 4
  /\ 0 <= 4
  /\ Z.of_nat (length [x68; x65; x6c; x6c]) <= 4
  /\ InputStream.Read sim_input (2 ^ 32) sim_connected
     = (Returns (ExceptionOr_result []),
        (InputStream.Read sim_input (2 ^ 32) sim_connected).2)
  /\ to_uint32 (2 ^ 32) = 0
  /\ ([] : ByteArray) = [].
Proof.
  destruct (Read_length_bounds sim_input 4 sim_connected _ _
              Sim_ReadAsync_fits eq_refl) as (Hlow & Hsize & _).
  destruct (Read_length_bounds sim_input (2 ^ 32) sim_connected _ _
              Sim_ReadAsync_fits eq_refl) as (_ & _ & Hnone).
  split; [exact Sim_ReadAsync_fits | ]. split; [reflexivity | ].
  split; [exact Hlow | ]. split; [lia | ]. split; [apply Hsize; lia | ].
  split; [reflexivity | ]. split; [reflexivity | ].
  apply Hnone. reflexivity.
Defined.

(** Writing "hi" and writing two zero bytes are the same on [Sim]. *)
Lemma Write_passes_no_bytes_in_use_witness :
  WriteAsync_reads_in_use (N := Sim_WinRT)
  /\ length [x68; x69] = length [x00; x00]
  /\ Z.of_nat (length [x68; x69]) < 2 ^ 32
  /\ Buffer_in_use (OutputStream.Write_buffer [x68; x69]) = []
  /\ OutputStream.Write sim_output [x68; x69] sim_connected
     = OutputStream.Write sim_output [x00; x00] sim_connected.
Proof.
  split; [exact Sim_WriteAsync_reads_in_use | ].
  split; [reflexivity | ]. split; [simpl; lia | ].
  apply (Write_passes_no_bytes_in_use sim_output [x68; x69] [x00; x00]
           sim_connected Sim_WriteAsync_reads_in_use);
    [reflexivity | simpl; lia].
Defined.

(** A fault that is no [std::exception] leaves each guarded operation. *)
Lemma guarded_operations_let_other_exceptions_out_witness :
  (out_WriteAsync 3%positive (OutputStream.Write_buffer [x68; x69])
     (sim_broken foreign_exception)
     = (Throws foreign_exception, sim_broken foreign_exception)
   /\ OutputStream.Write sim_output [x68; x69] (sim_broken foreign_exception)
      = (Throws foreign_exception, sim_broken foreign_exception))
  /\ (out_FlushAsync_get 3%positive (sim_broken foreign_exception)
        = (Throws foreign_exception, sim_broken foreign_exception)
      /\ OutputStream.Flush sim_output (sim_broken foreign_exception)
         = (Throws foreign_exception, sim_broken foreign_exception))
  /\ (in_Close 2%positive (sim_stuck foreign_exception)
        = (Throws foreign_exception, sim_stuck foreign_exception)
      /\ InputStream.Close sim_input (sim_stuck foreign_exception)
         = (Throws foreign_exception, sim_stuck foreign_exception))
  /\ (out_Close 3%positive (sim_stuck foreign_exception)
        = (Throws foreign_exception, sim_stuck foreign_exception)
      /\ OutputStream.Close sim_output (sim_stuck foreign_exception)
         = (Throws foreign_exception, sim_stuck foreign_exception)).
Proof.
  destruct (@guarded_operations_let_other_exceptions_out Sim Sim_WinRT)
    as (HW & HF & HIC & HOC).
  split; [split; [reflexivity | ] | split; [split; [reflexivity | ] |
    split; (split; [reflexivity | ])]].
  - apply (HW sim_output 3%positive); [reflexivity | simpl; lia | reflexivity].
  - apply (HF sim_output 3%positive); reflexivity.
  - apply (HIC sim_input 2%positive); reflexivity.
  - apply (HOC sim_output 3%positive); reflexivity.
Defined.

(** [ReadAsync] raising at once, and [DataReader::FromBuffer] raising
    after a read that returned. *)
Lemma Read_lets_every_exception_out_witness :
  in_winrt_stream_ sim_input = Some 2%positive
  /\ (in_ReadAsync 2%positive (Buffer_new 8) (to_uint32 8)
        [Some foreign_exception] = (Throws foreign_exception, [])
      /\ InputStream.Read sim_input 8 [Some foreign_exception]
         = (Throws foreign_exception, []))
  /\ (in_ReadAsync 2%positive (Buffer_new 8) (to_uint32 8)
        [None; Some std_exception]
        = (Returns (Buffer_new 8), [Some std_exception])
      /\ DataReader_FromBuffer (Buffer_new 8) [Some std_exception]
         = (Throws std_exception, [])
      /\ InputStream.Read sim_input 8 [None; Some std_exception]
         = (Throws std_exception, [])).
Proof.
  split; [reflexivity | ]. split.
  - split; [reflexivity | ].
    apply (proj1 (Read_lets_every_exception_out (N := Script_WinRT)
                    sim_input 2%positive 8 foreign_exception eq_refl)).
    reflexivity.
  - split; [reflexivity | ]. split; [reflexivity | ].
    apply (proj2 (Read_lets_every_exception_out (N := Script_WinRT)
                    sim_input 2%positive 8 std_exception eq_refl)
             [None; Some std_exception] [Some std_exception] []
             (Buffer_new 8)); reflexivity.
Defined.

(** What the operations return on [Sim], healthy and broken. *)
Lemma no_operation_returns_kIo_witness :
  (OutputStream.Write sim_output [x68; x69] (sim_broken std_exception)
     = (Returns kFailed, sim_broken std_exception)
   /\ (kFailed = kSuccess \/ kFailed = kFailed))
  /\ (OutputStream.Flush sim_output sim_connected
        = (Returns kSuccess, sim_connected)
      /\ (kSuccess = kSuccess \/ kSuccess = kFailed))
  /\ (InputStream.Close sim_input (sim_stuck std_exception)
        = (Returns kFailed, sim_stuck std_exception)
      /\ (kFailed = kSuccess \/ kFailed = kFailed))
  /\ (OutputStream.Close sim_output (sim_stuck std_exception)
        = (Returns kFailed, sim_stuck std_exception)
      /\ (kFailed = kSuccess \/ kFailed = kFailed))
  /\ (Socket.Close (sim_socket, sim_connected)
        = (Returns kSuccess, (Socket.Close (sim_socket, sim_connected)).2)
      /\ kSuccess = kSuccess).
Proof.
  destruct (@no_operation_returns_kIo Sim Sim_WinRT)
    as (HW & HF & HIC & HOC & HC).
  split; [split; [reflexivity | ] | split; [split; [reflexivity | ] |
    split; [split; [reflexivity | ] | split; (split; [reflexivity | ])]]].
  - exact (HW sim_output [x68; x69] (sim_broken std_exception) _ _ eq_refl).
  - exact (HF sim_output sim_connected _ _ eq_refl).
  - exact (HIC sim_input (sim_stuck std_exception) _ _ eq_refl).
  - exact (HOC sim_output (sim_stuck std_exception) _ _ eq_refl).
  - exact (HC (sim_socket, sim_connected) _ _ eq_refl).
Defined.

(** A native [Close] that raises once and returns the next time. *)
Lemma Close_throws_and_can_be_retried_witness :
  windows_socket_ sim_socket = Some 1%positive
  /\ socket_Close 1%positive [Some std_exception; None]
     = (Throws std_exception, [None])
  /\ socket_Close 1%positive [None] = (Returns tt, [])
  /\ Socket.Close (sim_socket, [Some std_exception; None])
     = (Throws std_exception, (sim_socket, [None]))
  /\ Socket.Close (sim_socket, [None : option thrown])
     = (Returns kSuccess, (closed_socket, [])).
Proof.
  split; [reflexivity | ]. split; [reflexivity | ]. split; [reflexivity | ].
  apply (Close_throws_and_can_be_retried (N := Script_WinRT) sim_socket
           1%positive [Some std_exception; None] [None] [] std_exception);
    reflexivity.
Defined.

(** A [Write] and a [Flush] after the socket was closed. *)
Lemma use_after_Close_is_undefined_witness :
  let st' := (Socket.Close (sim_socket, sim_connected)).2 in
  Socket.Close (sim_socket, sim_connected) = (Returns kSuccess, st')
  /\ Socket.call_Write [x68; x69] <> Socket.call_GetRemoteDevice
  /\ Socket.perform (Socket.call_Write [x68; x69]) st' = (Undefined, st')
  /\ Socket.perform_all [Socket.call_Write [x68; x69]; Socket.call_Flush] st'
     = None.
Proof.
  intros st'.
  assert (Hc : Socket.call_Write [x68; x69] <> Socket.call_GetRemoteDevice)
    by discriminate.
  split; [reflexivity | ]. split; [exact Hc | ].
  exact (use_after_Close_is_undefined (sim_socket, sim_connected) st'
           kSuccess (Socket.call_Write [x68; x69]) [Socket.call_Flush]
           eq_refl Hc).
Defined.

(** Both streams closed by their own [Close()], then the socket. *)
Lemma first_Close_succeeds_when_native_Close_does_witness :
  let cs := [Socket.call_InputClose; Socket.call_OutputClose;
             Socket.call_Read 4] in
  Socket.make sim_connected = (Returns sim_socket, sim_connected)
  /\ forallb (fun c => negb (Socket.is_Close c)) cs = true
  /\ exists st,
      Socket.perform_all cs (sim_socket, sim_connected) = Some st
      /\ windows_socket_ sim_socket = Some 1%positive
      /\ socket_Close 1%positive st.2 = (Returns tt, st.2)
      /\ Socket.Close st = (Returns kSuccess, (closed_socket, st.2)).
Proof.
  intros cs. split; [reflexivity | ]. split; [reflexivity | ].
  eexists. split; [reflexivity | ].
  edestruct (first_Close_succeeds_when_native_Close_does sim_connected
               sim_connected sim_socket cs)
    as (h & Hh & Hclose); [reflexivity | reflexivity | reflexivity | ].
  split; [reflexivity | ]. split; [reflexivity | ].
  assert (Hone : h = 1%positive) by (simpl in Hh; congruence).
  subst h. apply Hclose. reflexivity.
Defined.
